(** * Job tracking and status reconciliation of the motion-control video API

    A shallow embedding of [src/server/index.js]: the in-memory job map
    [jobs], the handler of [POST /api/generate] and the handler of
    [GET /api/status/:jobId], together with the properties of the
    job-tracking layer; the two upload handlers and the naming of the
    stored files come with them.

    The inference provider (the Replicate client) is outside the program.
    It is modelled as an oracle whose two entry points either return a
    prediction or throw; every call made to it is recorded in a trace, so
    that "no submission was performed" is a statement about the trace.

    Each handler runs to its end before the next request is served: the
    only suspension point of a handler is its single [await], and the
    properties below speak of requests served one after the other. *)

From Stdlib Require Import ZArith List Ascii.
From Stdlib Require Import Floats.PrimFloat.
From stdpp Require Import gmap strings pretty fin_maps.

Open Scope Z_scope.
Open Scope string_scope.

(** ** JavaScript values *)

(** The values that travel through the handlers: fields of a parsed JSON
    body, fields of a provider prediction, and [undefined] for a property
    that is not there. *)
#[warnings="-register-all"]
Inductive JsValue : Type :=
| JUndefined
| JNull
| JBool (b : bool)
| JNum (f : float)
| JStr (s : string)
| JArr (items : list JsValue)
| JObj (props : list (string * JsValue)).

(** ToBoolean: [undefined], [null], [false], [0], [-0], [NaN] and the empty
    string are falsy, everything else (every array and object) is truthy. *)
Definition truthy (v : JsValue) : bool :=
  match v with
  | JUndefined => false
  | JNull => false
  | JBool b => b
  | JNum f => negb (PrimFloat.eqb f 0%float || PrimFloat.is_nan f)
  | JStr s => negb (String.eqb s "")
  | JArr _ => true
  | JObj _ => true
  end.

(** [a || b] *)
Definition js_or (a b : JsValue) : JsValue :=
  if truthy a then a else b.

(** Property read on an object literal kept as its list of properties. *)
Fixpoint js_get (name : string) (props : list (string * JsValue)) : JsValue :=
  match props with
  | [] => JUndefined
  | (k, v) :: rest => if String.eqb k name then v else js_get name rest
  end.

(** [Date.now().toString()]: the decimal numeral of an integer number of
    milliseconds. *)
Definition toString (ms : Z) : string := pretty ms.

(** ** The provider *)

(** What a [catch (error)] clause of the handlers reads: [error.message]. *)
Record JsError : Type := mkJsError { message : JsValue }.

(** A statement either completes with a value or throws. *)
Inductive Completion (A : Type) : Type :=
| Normal (a : A)
| Throw (e : JsError).
Arguments Normal {A} a.
Arguments Throw {A} e.

(** The fields of a prediction that the handlers read. *)
Record Prediction : Type := mkPrediction {
  pred_id : JsValue;
  pred_status : JsValue;
  pred_output : JsValue;
  pred_error : JsValue
}.

(** The argument of [replicate.predictions.create]. *)
Record CreateOptions : Type := mkCreateOptions {
  version : string;
  input : list (string * JsValue)
}.

(** The provider at one instant. *)
Record Replicate : Type := mkReplicate {
  predictions_create : CreateOptions -> Completion Prediction;
  predictions_get : JsValue -> Completion Prediction
}.

Inductive ProviderCall : Type :=
| PredictionsCreate (options : CreateOptions)
| PredictionsGet (predictionId : JsValue).

(** ** The job map *)

(** The object stored by [jobs.set]. [videoUrl] is a property that the
    object does not have until a poll adds it. *)
Record JobRecord : Type := mkJobRecord {
  predictionId : JsValue;
  status : JsValue;
  characterImageUrl : JsValue;
  motionVideoUrl : JsValue;
  prompt : JsValue;
  createdAt : Z;
  videoUrl : option JsValue
}.

(** [job.status = v] *)
Definition set_status (v : JsValue) (job : JobRecord) : JobRecord :=
  {| predictionId := predictionId job;
     status := v;
     characterImageUrl := characterImageUrl job;
     motionVideoUrl := motionVideoUrl job;
     prompt := prompt job;
     createdAt := createdAt job;
     videoUrl := videoUrl job |}.

(** [job.videoUrl = v] *)
Definition set_videoUrl (v : JsValue) (job : JobRecord) : JobRecord :=
  {| predictionId := predictionId job;
     status := status job;
     characterImageUrl := characterImageUrl job;
     motionVideoUrl := motionVideoUrl job;
     prompt := prompt job;
     createdAt := createdAt job;
     videoUrl := Some v |}.

(** The process state the handlers act on: the map [jobs], and the trace of
    the calls made to the provider so far. *)
Record World : Type := mkWorld {
  jobs : gmap string JobRecord;
  calls : list ProviderCall
}.

Definition initial_world : World := {| jobs := ∅; calls := [] |}.

(** ** Handler computations *)

(** State passing with exceptions: a computation reads and writes the
    world and completes normally or throws. *)
Definition M (A : Type) : Type := World -> Completion A * World.

Definition ret {A : Type} (a : A) : M A := fun w => (Normal a, w).

Definition bind {A B : Type} (m : M A) (k : A -> M B) : M B :=
  fun w =>
    match m w with
    | (Normal a, w') => k a w'
    | (Throw e, w') => (Throw e, w')
    end.

(** [try { body } catch (error) { handler }] *)
Definition try_catch {A : Type} (body : M A) (handler : JsError -> M A) : M A :=
  fun w =>
    match body w with
    | (Normal a, w') => (Normal a, w')
    | (Throw e, w') => handler e w'
    end.

Notation "x <~ m ;; k" := (bind m (fun x => k))
  (at level 200, m at level 99, k at level 200, only parsing).
Notation "m ;;; k" := (bind m (fun _ => k))
  (at level 200, k at level 200, only parsing).

(** [jobs.get(jobId)] *)
Definition jobs_get (jobId : string) : M (option JobRecord) :=
  fun w => (Normal (jobs w !! jobId), w).

(** [jobs.set(jobId, job)] *)
Definition jobs_set (jobId : string) (job : JobRecord) : M unit :=
  fun w => (Normal tt, {| jobs := <[jobId := job]> (jobs w); calls := calls w |}).

(** [await replicate.predictions.create(options)] *)
Definition await_create (replicate : Replicate) (options : CreateOptions)
  : M Prediction :=
  fun w =>
    (predictions_create replicate options,
     {| jobs := jobs w; calls := calls w ++ [PredictionsCreate options] |}).

(** [await replicate.predictions.get(id)] *)
Definition await_get (replicate : Replicate) (id : JsValue) : M Prediction :=
  fun w =>
    (predictions_get replicate id,
     {| jobs := jobs w; calls := calls w ++ [PredictionsGet id] |}).

(** ** Requests and responses *)

(** [res.status(code).json(body)]; [res.json(body)] answers with 200. *)
Record Response : Type := mkResponse {
  statusCode : Z;
  body : list (string * JsValue)
}.

Definition json (props : list (string * JsValue)) : Response :=
  {| statusCode := 200; body := props |}.

Definition status_json (code : Z) (props : list (string * JsValue)) : Response :=
  {| statusCode := code; body := props |}.

(** The three properties that the generate handler takes out of
    [req.body]; a property that the body does not have reads [undefined]. *)
Record GenerateBody : Type := mkGenerateBody {
  body_characterImageUrl : JsValue;
  body_motionVideoUrl : JsValue;
  body_prompt : JsValue
}.

Definition model_version : string :=
  "lucataco/animate-diff:1531004ee4c98894ab11f62a7e6b40edd9ccc75c97974f1fd2f3a98ecc8c85f9".

Definition default_prompt : string := "high quality, best quality".

Definition negative_prompt : string :=
  "badhandv4, easynegative, ng_deepnegative_v1_75t, verybadimagenegative_v1.3, bad-artist, bad_prompt_version2-neg, teeth".

(** The object literal passed to [replicate.predictions.create]. *)
Definition create_options (req : GenerateBody) : CreateOptions :=
  {| version := model_version;
     input :=
       [ ("path", body_motionVideoUrl req);
         ("seed", JNum 255224557%float);
         ("steps", JNum 25%float);
         ("prompt", js_or (body_prompt req) (JStr default_prompt));
         ("n_prompt", JStr negative_prompt);
         ("motion_module", JStr "mm_sd_v14");
         ("guidance_scale", JNum 7.5%float) ] |}.

(** The object literal passed to [jobs.set] by the generate handler. *)
Definition new_job (req : GenerateBody) (prediction : Prediction) (created : Z)
  : JobRecord :=
  {| predictionId := pred_id prediction;
     status := JStr "processing";
     characterImageUrl := body_characterImageUrl req;
     motionVideoUrl := body_motionVideoUrl req;
     prompt := body_prompt req;
     createdAt := created;
     videoUrl := None |}.

(** [POST /api/generate]. [now] is the reading of [Date.now()] taken before
    the submission, [created] the one of [new Date()] taken after it. *)
Definition api_generate (now created : Z) (replicate : Replicate)
    (req : GenerateBody) : M Response :=
  try_catch
    (if negb (truthy (body_characterImageUrl req))
        || negb (truthy (body_motionVideoUrl req))
     then
       ret (status_json 400
              [("error", JStr "Character image and motion video are required")])
     else
       let jobId := toString now in
       prediction <~ await_create replicate (create_options req) ;;
       jobs_set jobId (new_job req prediction created) ;;;
       ret (json [ ("success", JBool true);
                   ("message", JStr "Video generation started");
                   ("jobId", JStr jobId);
                   ("predictionId", pred_id prediction);
                   ("status", JStr "processing") ]))
    (fun error => ret (status_json 500 [("error", message error)])).

(** The reconciliation of a fetched prediction into the job object. *)
Definition reconcile (prediction : Prediction) (job : JobRecord) : JobRecord :=
  let job := set_status (pred_status prediction) job in
  if truthy (pred_output prediction)
  then set_videoUrl (pred_output prediction) job
  else job.

(** [GET /api/status/:jobId] *)
Definition api_status (replicate : Replicate) (jobId : string) : M Response :=
  found <~ jobs_get jobId ;;
  match found with
  | None => ret (status_json 404 [("error", JStr "Job not found")])
  | Some job =>
      try_catch
        (prediction <~ await_get replicate (predictionId job) ;;
         jobs_set jobId (reconcile prediction job) ;;;
         ret (json [ ("jobId", JStr jobId);
                     ("status", pred_status prediction);
                     ("videoUrl", js_or (pred_output prediction) JNull);
                     ("error", js_or (pred_error prediction) JNull) ]))
        (fun error => ret (status_json 500 [("error", message error)]))
  end.

(** ** Serving a sequence of requests *)

Inductive Request : Type :=
| PostGenerate (now created : Z) (req : GenerateBody)
| GetStatus (jobId : string).

Definition serve (replicate : Replicate) (r : Request) : M Response :=
  match r with
  | PostGenerate now created req => api_generate now created replicate req
  | GetStatus jobId => api_status replicate jobId
  end.

(** The world after a request, whatever the response. *)
Definition after (replicate : Replicate) (r : Request) (w : World) : World :=
  snd (serve replicate r w).

(** The worlds the process can be in when every status the provider
    reports on a fetch satisfies [P]: the empty map at start, then one
    request after the other, each against the provider as it is then. *)
Inductive reachable_reporting (P : JsValue -> Prop) : World -> Prop :=
| reachable_start : reachable_reporting P initial_world
| reachable_step (w : World) (replicate : Replicate) (r : Request) :
    reachable_reporting P w ->
    (forall id prediction,
        predictions_get replicate id = Normal prediction ->
        P (pred_status prediction)) ->
    reachable_reporting P (after replicate r w).

(** No assumption on the provider. *)
Definition reachable : World -> Prop := reachable_reporting (fun _ => True).

(** A run of polls, each with the provider as it is at that poll. *)
Definition run_polls (polls : list (Replicate * string)) (w : World) : World :=
  fold_left (fun w poll => after (fst poll) (GetStatus (snd poll)) w) polls w.

(** ** Vocabulary of the properties *)

Definition is_string (expected : string) (v : JsValue) : bool :=
  match v with
  | JStr s => String.eqb s expected
  | _ => false
  end.

(** The terminal statuses: succeeded and failed. *)
Definition is_terminal (v : JsValue) : bool :=
  is_string "succeeded" v || is_string "failed" v.

(** The status enumeration of the data model. *)
Definition valid_status (v : JsValue) : bool :=
  is_string "pending" v || is_string "processing" v
  || is_string "succeeded" v || is_string "failed" v.

(** An input of the request body that is absent or the empty string. *)
Definition missing_or_empty (v : JsValue) : Prop :=
  v = JUndefined \/ v = JStr "".

(** The values of the input parameters of a submission. *)
Definition input_values (options : CreateOptions) : list JsValue :=
  map snd (input options).

(** The submissions among the provider calls of a trace. *)
Definition submissions (trace : list ProviderCall) : list CreateOptions :=
  flat_map (fun c => match c with
                     | PredictionsCreate o => [o]
                     | PredictionsGet _ => []
                     end) trace.

(** The job object at [jobId] has a [videoUrl], and it is not null. *)
Definition has_video (jobId : string) (w : World) : Prop :=
  exists job v,
    jobs w !! jobId = Some job /\ videoUrl job = Some v /\ truthy v = true.

Definition generate_ok_response (now : Z) (prediction : Prediction) : Response :=
  json [ ("success", JBool true);
         ("message", JStr "Video generation started");
         ("jobId", JStr (toString now));
         ("predictionId", pred_id prediction);
         ("status", JStr "processing") ].

Definition status_ok_response (jobId : string) (prediction : Prediction) : Response :=
  json [ ("jobId", JStr jobId);
         ("status", pred_status prediction);
         ("videoUrl", js_or (pred_output prediction) JNull);
         ("error", js_or (pred_error prediction) JNull) ].

Definition error_response (code : Z) (msg : JsValue) : Response :=
  status_json code [("error", msg)].

Definition log_call (c : ProviderCall) (w : World) : World :=
  {| jobs := jobs w; calls := calls w ++ [c] |}.

Definition store_job (jobId : string) (job : JobRecord) (w : World) : World :=
  {| jobs := <[jobId := job]> (jobs w); calls := calls w |}.

Definition both_inputs_present (req : GenerateBody) : bool :=
  truthy (body_characterImageUrl req) && truthy (body_motionVideoUrl req).

(** ** A scenario used by the examples

    One upload pair, one prompt, and providers that answer every call with
    a fixed prediction or with a fixed failure. *)

Definition provider_reporting (prediction : Prediction) : Replicate :=
  {| predictions_create := fun _ => Normal prediction;
     predictions_get := fun _ => Normal prediction |}.

Definition provider_failing (msg : string) : Replicate :=
  {| predictions_create := fun _ => Throw {| message := JStr msg |};
     predictions_get := fun _ => Throw {| message := JStr msg |} |}.

Definition sample_prediction (st : string) (out : JsValue) : Prediction :=
  {| pred_id := JStr "ufawqhfynnddngldkgtslldrkq";
     pred_status := JStr st;
     pred_output := out;
     pred_error := JNull |}.

Definition sample_output : JsValue :=
  JStr "https://replicate.delivery/pbxt/out.mp4".

Definition sample_body : GenerateBody :=
  {| body_characterImageUrl := JStr "http://localhost:5000/uploads/1700000000000.png";
     body_motionVideoUrl := JStr "http://localhost:5000/uploads/1700000000731.mp4";
     body_prompt := JStr "dancing" |}.

Definition sample_now : Z := 1700000001000.

Definition sample_jobId : string := "1700000001000".

(** The world after one accepted generate request. *)
Definition sample_world : World :=
  after (provider_reporting (sample_prediction "starting" JNull))
        (PostGenerate sample_now (sample_now + 412) sample_body)
        initial_world.

(** ** Runs of requests *)

(** Requests served one after the other, each against the provider as it is
    when the request is served. *)
Definition run (steps : list (Replicate * Request)) (w : World) : World :=
  fold_left (fun w step => after (fst step) (snd step) w) steps w.

(** The fields of a job object that only the generate handler writes. *)
Definition creation_fields (job : JobRecord)
  : JsValue * JsValue * JsValue * JsValue * Z :=
  (predictionId job, characterImageUrl job, motionVideoUrl job, prompt job,
   createdAt job).

(** ** Uploads *)

(** [req.file] as the upload handlers read it. *)
Record UploadedFile : Type := mkUploadedFile {
  originalname : string;
  filename : string
}.

(** What the upload handlers read of a request: [req.protocol],
    [req.get('host')], which is [undefined] without a Host header, and
    [req.file], which is [undefined] when the named field carried no file. *)
Record UploadRequest : Type := mkUploadRequest {
  protocol : string;
  host : option string;
  file : option UploadedFile
}.

(** A substitution [${v}] of a template literal. *)
Definition interpolate (v : option string) : string :=
  match v with
  | Some s => s
  | None => "undefined"
  end.

(** The [filename] callback of the disk storage:
    [Date.now() + path.extname(file.originalname)]. [path.extname] is the
    runtime's; it is a parameter here. *)
Definition storage_filename (extname : string -> string) (now : Z)
    (original : string) : string :=
  toString now ++ extname original.

(** [POST /api/upload/image] *)
Definition api_upload_image (req : UploadRequest) : Response :=
  match file req with
  | None => status_json 400 [("error", JStr "No image file uploaded")]
  | Some f =>
      let fileUrl :=
        protocol req ++ "://" ++ interpolate (host req) ++ "/uploads/"
        ++ filename f in
      json [ ("success", JBool true);
             ("filename", JStr (filename f));
             ("path", JStr ("/uploads/" ++ filename f));
             ("url", JStr fileUrl) ]
  end.

(** [POST /api/upload/video] *)
Definition api_upload_video (req : UploadRequest) : Response :=
  match file req with
  | None => status_json 400 [("error", JStr "No video file uploaded")]
  | Some f =>
      let fileUrl :=
        protocol req ++ "://" ++ interpolate (host req) ++ "/uploads/"
        ++ filename f in
      json [ ("success", JBool true);
             ("filename", JStr (filename f));
             ("path", JStr ("/uploads/" ++ filename f));
             ("url", JStr fileUrl) ]
  end.

(** The string has an occurrence of the character. *)
Fixpoint mentions (c : ascii) (s : string) : bool :=
  match s with
  | EmptyString => false
  | String a rest => Ascii.eqb a c || mentions c rest
  end.

(** The shape of a file extension: nothing, or a dot and what follows. *)
Definition extension_shaped (e : string) : Prop :=
  e = "" \/ exists rest, e = String "."%char rest.

(** A request with an uploaded file, for the examples. *)
Definition sample_upload : UploadRequest :=
  {| protocol := "http";
     host := Some "localhost:5000";
     file := Some {| originalname := "hero.png";
                     filename := "1700000000000.png" |} |}.

(** * Properties *)

(** ** Equations of the two handlers *)

Lemma api_generate_rejects now created replicate req w :
  both_inputs_present req = false ->
  api_generate now created replicate req w =
    (Normal (error_response 400
               (JStr "Character image and motion video are required")), w).
Proof.
  unfold both_inputs_present, api_generate, try_catch, ret.
  destruct (truthy (body_characterImageUrl req)),
           (truthy (body_motionVideoUrl req)); simpl; intros H;
    try discriminate H; reflexivity.
Qed.

Lemma api_generate_submits now created replicate req w :
  both_inputs_present req = true ->
  api_generate now created replicate req w =
    match predictions_create replicate (create_options req) with
    | Normal prediction =>
        (Normal (generate_ok_response now prediction),
         store_job (toString now) (new_job req prediction created)
           (log_call (PredictionsCreate (create_options req)) w))
    | Throw e =>
        (Normal (error_response 500 (message e)),
         log_call (PredictionsCreate (create_options req)) w)
    end.
Proof.
  unfold both_inputs_present, api_generate, try_catch, bind, await_create,
    jobs_set, ret.
  destruct (truthy (body_characterImageUrl req)),
           (truthy (body_motionVideoUrl req)); simpl; intros H;
    try discriminate H.
  destruct (predictions_create replicate (create_options req)); reflexivity.
Qed.

Lemma api_status_unknown replicate jobId w :
  jobs w !! jobId = None ->
  api_status replicate jobId w =
    (Normal (error_response 404 (JStr "Job not found")), w).
Proof.
  intros H. unfold api_status, bind, jobs_get, ret. rewrite H. reflexivity.
Qed.

Lemma api_status_known replicate jobId w job :
  jobs w !! jobId = Some job ->
  api_status replicate jobId w =
    match predictions_get replicate (predictionId job) with
    | Normal prediction =>
        (Normal (status_ok_response jobId prediction),
         store_job jobId (reconcile prediction job)
           (log_call (PredictionsGet (predictionId job)) w))
    | Throw e =>
        (Normal (error_response 500 (message e)),
         log_call (PredictionsGet (predictionId job)) w)
    end.
Proof.
  intros H. unfold api_status, bind, jobs_get, try_catch, await_get, jobs_set, ret.
  rewrite H.
  destruct (predictions_get replicate (predictionId job)); reflexivity.
Qed.

(** Neither handler lets an exception escape. *)
Lemma serve_answers replicate r w :
  exists response, fst (serve replicate r w) = Normal response.
Proof.
  destruct r as [now created req | jobId]; simpl.
  - destruct (both_inputs_present req) eqn:E.
    + rewrite (api_generate_submits _ _ _ _ _ E).
      destruct (predictions_create replicate (create_options req)); eauto.
    + rewrite (api_generate_rejects _ _ _ _ _ E). eauto.
  - destruct (jobs w !! jobId) as [job|] eqn:E.
    + rewrite (api_status_known _ _ _ _ E).
      destruct (predictions_get replicate (predictionId job)); eauto.
    + rewrite (api_status_unknown _ _ _ E). eauto.
Qed.

(** ** Simple facts about the vocabulary *)

Lemma missing_or_empty_falsy v : missing_or_empty v -> truthy v = false.
Proof. intros [-> | ->]; reflexivity. Qed.

Lemma reconcile_predictionId prediction job :
  predictionId (reconcile prediction job) = predictionId job.
Proof. unfold reconcile. destruct (truthy (pred_output prediction)); reflexivity. Qed.

Lemma reconcile_status prediction job :
  status (reconcile prediction job) = pred_status prediction.
Proof. unfold reconcile. destruct (truthy (pred_output prediction)); reflexivity. Qed.

Lemma reconcile_twice prediction job :
  reconcile prediction (reconcile prediction job) = reconcile prediction job.
Proof. unfold reconcile. destruct (truthy (pred_output prediction)); reflexivity. Qed.

(** Reconciliation writes [videoUrl] when the output is truthy and leaves
    it alone otherwise. *)
Lemma reconcile_videoUrl prediction job :
  videoUrl (reconcile prediction job) =
    if truthy (pred_output prediction)
    then Some (pred_output prediction)
    else videoUrl job.
Proof. unfold reconcile. destruct (truthy (pred_output prediction)); reflexivity. Qed.

Lemma toString_inj a b : toString a = toString b -> a = b.
Proof. unfold toString. apply (inj pretty). Qed.

(** ** Failure paths *)

(** C5: a generate call whose characterImageUrl or motionVideoUrl is missing
    or empty is answered with the 400 client error, makes no call to the
    provider, and leaves the job map, hence its size, as it was. *)
Theorem generate_missing_input_rejected now created replicate req w :
  missing_or_empty (body_characterImageUrl req)
  \/ missing_or_empty (body_motionVideoUrl req) ->
  fst (api_generate now created replicate req w) =
    Normal (error_response 400
              (JStr "Character image and motion video are required"))
  /\ calls (snd (api_generate now created replicate req w)) = calls w
  /\ submissions (calls (snd (api_generate now created replicate req w)))
     = submissions (calls w)
  /\ jobs (snd (api_generate now created replicate req w)) = jobs w
  /\ size (jobs (snd (api_generate now created replicate req w)))
     = size (jobs w).
Proof.
  intros H.
  assert (E : both_inputs_present req = false).
  { unfold both_inputs_present.
    destruct H as [H | H]; rewrite (missing_or_empty_falsy _ H).
    - reflexivity.
    - apply andb_false_r. }
  rewrite (api_generate_rejects now created replicate req w E).
  simpl. repeat split.
Qed.

Lemma generate_missing_input_rejected_witness :
  let req := {| body_characterImageUrl := JStr "";
                body_motionVideoUrl := body_motionVideoUrl sample_body;
                body_prompt := JUndefined |} in
  let replicate := provider_reporting (sample_prediction "starting" JNull) in
  fst (api_generate sample_now sample_now replicate req sample_world) =
    Normal (error_response 400
              (JStr "Character image and motion video are required"))
  /\ size (jobs (snd (api_generate sample_now sample_now replicate req
                        sample_world))) = 1%nat.
Proof.
  intros req replicate.
  destruct (generate_missing_input_rejected sample_now sample_now replicate
              req sample_world) as (Hr & _ & _ & _ & Hs).
  - left. right. reflexivity.
  - split; [exact Hr | rewrite Hs; reflexivity].
Defined.

(** C4: when the submission made by a generate call throws, the call is
    answered with the 500 server error carrying the message of the error,
    and the job map is exactly what it was: no record is inserted. *)
Theorem generate_provider_error now created replicate req w options e :
  calls (snd (api_generate now created replicate req w))
    = (calls w ++ [PredictionsCreate options])%list ->
  predictions_create replicate options = Throw e ->
  fst (api_generate now created replicate req w) =
    Normal (error_response 500 (message e))
  /\ jobs (snd (api_generate now created replicate req w)) = jobs w.
Proof.
  destruct (both_inputs_present req) eqn:E.
  - rewrite (api_generate_submits now created replicate req w E).
    destruct (predictions_create replicate (create_options req)) as [p | e0] eqn:Ep;
      simpl; intros Hc He.
    + apply app_inj_tail in Hc as [_ Hc]. injection Hc as <-. congruence.
    + apply app_inj_tail in Hc as [_ Hc]. injection Hc as <-.
      rewrite Ep in He. injection He as <-. split; reflexivity.
  - rewrite (api_generate_rejects now created replicate req w E). simpl.
    intros Hc _. exfalso.
    apply (f_equal (@length ProviderCall)) in Hc.
    rewrite length_app in Hc. simpl in Hc. lia.
Qed.

Lemma generate_provider_error_witness :
  fst (api_generate sample_now sample_now (provider_failing "Unauthorized")
         sample_body sample_world) =
    Normal (error_response 500 (JStr "Unauthorized"))
  /\ jobs (snd (api_generate sample_now sample_now
                  (provider_failing "Unauthorized") sample_body sample_world))
     = jobs sample_world.
Proof.
  apply (generate_provider_error sample_now sample_now
           (provider_failing "Unauthorized") sample_body sample_world
           (create_options sample_body) {| message := JStr "Unauthorized" |});
    reflexivity.
Defined.

(** C3: when the provider fetch of a poll on an existing job throws, the
    poll is answered with the 500 server error carrying the message of the
    error, and the job map, in particular the polled record, is exactly what
    it was. *)
Theorem status_provider_error replicate jobId w job e :
  jobs w !! jobId = Some job ->
  predictions_get replicate (predictionId job) = Throw e ->
  fst (api_status replicate jobId w) = Normal (error_response 500 (message e))
  /\ jobs (snd (api_status replicate jobId w)) = jobs w
  /\ jobs (snd (api_status replicate jobId w)) !! jobId = Some job.
Proof.
  intros Hjob He.
  rewrite (api_status_known replicate jobId w job Hjob), He. simpl.
  repeat split. exact Hjob.
Qed.

Lemma status_provider_error_witness :
  fst (api_status (provider_failing "connect ETIMEDOUT") sample_jobId
         sample_world) =
    Normal (error_response 500 (JStr "connect ETIMEDOUT"))
  /\ jobs (snd (api_status (provider_failing "connect ETIMEDOUT") sample_jobId
                  sample_world)) = jobs sample_world.
Proof.
  destruct (status_provider_error (provider_failing "connect ETIMEDOUT")
              sample_jobId sample_world
              (new_job sample_body (sample_prediction "starting" JNull)
                 (sample_now + 412))
              {| message := JStr "connect ETIMEDOUT" |})
    as (Hr & Hj & _); [reflexivity | reflexivity |].
  split; [exact Hr | exact Hj].
Defined.

(** ** Polling *)

(** A poll that reaches the provider stores the reconciled object under the
    polled identifier and touches no other entry. *)
Lemma api_status_jobs replicate jobId w job :
  jobs w !! jobId = Some job ->
  jobs (snd (api_status replicate jobId w)) =
    match predictions_get replicate (predictionId job) with
    | Normal prediction => <[jobId := reconcile prediction job]> (jobs w)
    | Throw _ => jobs w
    end.
Proof.
  intros Hjob. rewrite (api_status_known replicate jobId w job Hjob).
  destruct (predictions_get replicate (predictionId job)); reflexivity.
Qed.

(** C8: two polls of an existing job in succession, against a provider
    whose answers are the same for both, give the same response, hence the
    same status and the same videoUrl; the second leaves the job map as the
    first left it. *)
Theorem status_twice_same replicate jobId w job :
  jobs w !! jobId = Some job ->
  exists r1 r2,
    fst (api_status replicate jobId w) = Normal r1
    /\ fst (api_status replicate jobId (snd (api_status replicate jobId w)))
       = Normal r2
    /\ js_get "status" (body r1) = js_get "status" (body r2)
    /\ js_get "videoUrl" (body r1) = js_get "videoUrl" (body r2)
    /\ r1 = r2
    /\ jobs (snd (api_status replicate jobId (snd (api_status replicate jobId w))))
       = jobs (snd (api_status replicate jobId w)).
Proof.
  intros Hjob.
  rewrite (api_status_known replicate jobId w job Hjob).
  destruct (predictions_get replicate (predictionId job)) as [p | e] eqn:Ep;
    simpl.
  - set (w1 := store_job jobId (reconcile p job)
                 (log_call (PredictionsGet (predictionId job)) w)).
    assert (H1 : jobs w1 !! jobId = Some (reconcile p job))
      by apply lookup_insert_eq.
    rewrite (api_status_known replicate jobId w1 _ H1).
    rewrite reconcile_predictionId, Ep. simpl.
    exists (status_ok_response jobId p), (status_ok_response jobId p).
    repeat split.
    rewrite reconcile_twice. apply insert_insert_eq.
  - set (w1 := log_call (PredictionsGet (predictionId job)) w).
    assert (H1 : jobs w1 !! jobId = Some job) by exact Hjob.
    rewrite (api_status_known replicate jobId w1 _ H1), Ep. simpl.
    exists (error_response 500 (message e)), (error_response 500 (message e)).
    repeat split.
Qed.

Lemma status_twice_same_witness :
  let replicate := provider_reporting (sample_prediction "succeeded" sample_output) in
  exists r1 r2,
    fst (api_status replicate sample_jobId sample_world) = Normal r1
    /\ fst (api_status replicate sample_jobId
              (snd (api_status replicate sample_jobId sample_world)))
       = Normal r2
    /\ js_get "status" (body r1) = js_get "status" (body r2)
    /\ js_get "videoUrl" (body r1) = js_get "videoUrl" (body r2).
Proof.
  intros replicate.
  destruct (status_twice_same replicate sample_jobId sample_world
              (new_job sample_body (sample_prediction "starting" JNull)
                 (sample_now + 412)))
    as (r1 & r2 & H1 & H2 & Hs & Hv & _); [reflexivity |].
  exists r1, r2. repeat split; assumption.
Defined.

(** ** Submission *)

(** A generate call answered with 200 is one whose two inputs were present
    and whose submission returned a prediction. *)
Lemma api_generate_success now created replicate req w r :
  fst (api_generate now created replicate req w) = Normal r ->
  statusCode r = 200 ->
  exists prediction,
    both_inputs_present req = true
    /\ predictions_create replicate (create_options req) = Normal prediction
    /\ r = generate_ok_response now prediction
    /\ snd (api_generate now created replicate req w) =
         store_job (toString now) (new_job req prediction created)
           (log_call (PredictionsCreate (create_options req)) w).
Proof.
  destruct (both_inputs_present req) eqn:E.
  - rewrite (api_generate_submits now created replicate req w E).
    destruct (predictions_create replicate (create_options req)) as [p | e];
      simpl; intros Hr Hc.
    + injection Hr as <-. exists p. repeat split.
    + injection Hr as <-. discriminate Hc.
  - rewrite (api_generate_rejects now created replicate req w E). simpl.
    intros Hr Hc. injection Hr as <-. discriminate Hc.
Qed.

(** C10: when the prompt of a generate call is absent or the empty string,
    the submission made by the call carries the default prompt
    "high quality, best quality", and, once the provider has accepted the
    submission, the record stored under the new identifier keeps the prompt
    as it came in the request. *)
Theorem generate_default_prompt now created replicate req w :
  body_prompt req = JUndefined \/ body_prompt req = JStr "" ->
  both_inputs_present req = true ->
  calls (snd (api_generate now created replicate req w))
    = (calls w ++ [PredictionsCreate (create_options req)])%list
  /\ js_get "prompt" (input (create_options req))
     = JStr "high quality, best quality"
  /\ forall prediction,
       predictions_create replicate (create_options req) = Normal prediction ->
       exists job,
         jobs (snd (api_generate now created replicate req w)) !! toString now
           = Some job
         /\ prompt job = body_prompt req.
Proof.
  intros Hp E.
  rewrite (api_generate_submits now created replicate req w E).
  split; [| split].
  - destruct (predictions_create replicate (create_options req)); reflexivity.
  - destruct Hp as [Hp | Hp]; simpl; rewrite Hp; reflexivity.
  - intros p Ep. rewrite Ep. simpl.
    exists (new_job req p created). split; [apply lookup_insert_eq | reflexivity].
Qed.

Lemma generate_default_prompt_witness :
  let req := {| body_characterImageUrl := body_characterImageUrl sample_body;
                body_motionVideoUrl := body_motionVideoUrl sample_body;
                body_prompt := JStr "" |} in
  js_get "prompt" (input (create_options req)) = JStr "high quality, best quality"
  /\ exists job,
       jobs (snd (api_generate sample_now sample_now
                    (provider_reporting (sample_prediction "starting" JNull))
                    req initial_world)) !! toString sample_now = Some job
       /\ prompt job = JStr "".
Proof.
  intros req.
  destruct (generate_default_prompt sample_now sample_now
              (provider_reporting (sample_prediction "starting" JNull))
              req initial_world) as (_ & Hd & Hs).
  - right. reflexivity.
  - reflexivity.
  - split; [exact Hd |].
    exact (Hs (sample_prediction "starting" JNull) eq_refl).
Defined.

(** C9, as stated, fails: an accepted generate call makes one submission,
    and the character image reference of the request is not among the
    values of its input parameters. *)
Lemma character_image_not_forwarded :
  let replicate := provider_reporting (sample_prediction "starting" JNull) in
  let run := api_generate sample_now (sample_now + 412) replicate sample_body
               initial_world in
  fst run = Normal (generate_ok_response sample_now
                      (sample_prediction "starting" JNull))
  /\ submissions (calls (snd run)) = [create_options sample_body]
  /\ ~ In (body_characterImageUrl sample_body)
          (input_values (create_options sample_body)).
Proof.
  simpl. repeat split.
  unfold input_values. simpl.
  intros H. repeat (destruct H as [H | H]; [discriminate H |]). exact H.
Qed.

(** C9, amended: an accepted generate call makes exactly one submission; the
    motion video reference of the request is its [path] input parameter, and
    the character image reference has no part in it: the submission is the
    same whatever the character image reference is. *)
Theorem motion_video_forwarded now created replicate req w r :
  fst (api_generate now created replicate req w) = Normal r ->
  statusCode r = 200 ->
  calls (snd (api_generate now created replicate req w))
    = (calls w ++ [PredictionsCreate (create_options req)])%list
  /\ js_get "path" (input (create_options req)) = body_motionVideoUrl req
  /\ In (body_motionVideoUrl req) (input_values (create_options req))
  /\ forall image,
       create_options {| body_characterImageUrl := image;
                         body_motionVideoUrl := body_motionVideoUrl req;
                         body_prompt := body_prompt req |}
       = create_options req.
Proof.
  intros Hr Hc.
  destruct (api_generate_success now created replicate req w r Hr Hc)
    as (p & _ & _ & _ & Hw).
  rewrite Hw. simpl. repeat split. left. reflexivity.
Qed.

Lemma motion_video_forwarded_witness :
  js_get "path" (input (create_options sample_body))
    = body_motionVideoUrl sample_body
  /\ In (body_motionVideoUrl sample_body)
        (input_values (create_options sample_body)).
Proof.
  destruct (motion_video_forwarded sample_now (sample_now + 412)
              (provider_reporting (sample_prediction "starting" JNull))
              sample_body initial_world
              (generate_ok_response sample_now
                 (sample_prediction "starting" JNull)))
    as (_ & Hp & Hi & _); [reflexivity | reflexivity |].
  split; [exact Hp | exact Hi].
Defined.

(** ** Identifiers *)

(** C6, as stated, fails: two generate requests that read the same
    millisecond from the clock before their submissions are both accepted
    under the same identifier, and the record of the second replaces the
    record of the first. *)
Lemma same_millisecond_same_id :
  let replicate := provider_reporting (sample_prediction "starting" JNull) in
  let other_body :=
    {| body_characterImageUrl := JStr "http://localhost:5000/uploads/1700000000950.png";
       body_motionVideoUrl := JStr "http://localhost:5000/uploads/1700000000990.mp4";
       body_prompt := JStr "waving" |} in
  let first := api_generate sample_now (sample_now + 412) replicate sample_body
                 initial_world in
  let second := api_generate sample_now (sample_now + 530) replicate other_body
                  (snd first) in
  (exists r1 r2,
      fst first = Normal r1 /\ fst second = Normal r2
      /\ statusCode r1 = 200 /\ statusCode r2 = 200
      /\ js_get "jobId" (body r1) = js_get "jobId" (body r2))
  /\ (characterImageUrl <$> jobs (snd first) !! sample_jobId)
     = Some (body_characterImageUrl sample_body)
  /\ (characterImageUrl <$> jobs (snd second) !! sample_jobId)
     = Some (body_characterImageUrl other_body)
  /\ size (jobs (snd second)) = 1%nat.
Proof.
  simpl. split; [| repeat split].
  eexists _, _. repeat split.
Qed.

(** C6, amended: two accepted generate calls whose clock readings differ
    return different identifiers, and the later one leaves the entry of the
    earlier identifier, like every entry other than its own, as it was. *)
Theorem distinct_clock_distinct_ids
    now1 created1 replicate1 req1 w1 r1
    now2 created2 replicate2 req2 w2 r2 :
  fst (api_generate now1 created1 replicate1 req1 w1) = Normal r1 ->
  statusCode r1 = 200 ->
  fst (api_generate now2 created2 replicate2 req2 w2) = Normal r2 ->
  statusCode r2 = 200 ->
  now1 <> now2 ->
  js_get "jobId" (body r1) = JStr (toString now1)
  /\ js_get "jobId" (body r2) = JStr (toString now2)
  /\ js_get "jobId" (body r1) <> js_get "jobId" (body r2)
  /\ jobs (snd (api_generate now2 created2 replicate2 req2 w2)) !! toString now1
     = jobs w2 !! toString now1
  /\ forall other,
       other <> toString now2 ->
       jobs (snd (api_generate now2 created2 replicate2 req2 w2)) !! other
       = jobs w2 !! other.
Proof.
  intros Hr1 Hc1 Hr2 Hc2 Hne.
  destruct (api_generate_success _ _ _ _ _ _ Hr1 Hc1) as (p1 & _ & _ & -> & _).
  destruct (api_generate_success _ _ _ _ _ _ Hr2 Hc2) as (p2 & _ & _ & -> & Hw).
  assert (Hid : toString now2 <> toString now1).
  { intros H. apply Hne. symmetry. apply toString_inj, H. }
  rewrite Hw. simpl. repeat split.
  - intros H. injection H as H. apply Hid. symmetry. exact H.
  - apply lookup_insert_ne, Hid.
  - intros other Ho. apply lookup_insert_ne. congruence.
Qed.

Lemma distinct_clock_distinct_ids_witness :
  let replicate := provider_reporting (sample_prediction "starting" JNull) in
  jobs (snd (api_generate (sample_now + 1) (sample_now + 530) replicate
               sample_body sample_world)) !! toString sample_now
  = jobs sample_world !! toString sample_now.
Proof.
  intros replicate.
  destruct (distinct_clock_distinct_ids
              sample_now (sample_now + 412) replicate sample_body initial_world
              (generate_ok_response sample_now
                 (sample_prediction "starting" JNull))
              (sample_now + 1) (sample_now + 530) replicate sample_body
              sample_world
              (generate_ok_response (sample_now + 1)
                 (sample_prediction "starting" JNull)))
    as (_ & _ & _ & Hk & _);
    [reflexivity | reflexivity | reflexivity | reflexivity | | exact Hk].
  unfold sample_now. lia.
Defined.

(** ** Status and output across polls *)

(** C1, as stated, fails: after a poll has set the status of a record to
    succeeded, a later successful poll on which the provider reports
    processing sets it back to processing. *)
Lemma terminal_status_not_retained :
  let done := provider_reporting (sample_prediction "succeeded" sample_output) in
  let busy := provider_reporting (sample_prediction "processing" JNull) in
  let w1 := after done (GetStatus sample_jobId) sample_world in
  let w2 := after busy (GetStatus sample_jobId) w1 in
  (is_terminal <$> (status <$> jobs w1 !! sample_jobId)) = Some true
  /\ fst (api_status busy sample_jobId w1)
     = Normal (status_ok_response sample_jobId
                 (sample_prediction "processing" JNull))
  /\ (status <$> jobs w2 !! sample_jobId) = Some (JStr "processing")
  /\ (is_terminal <$> (status <$> jobs w2 !! sample_jobId)) = Some false.
Proof. simpl. repeat split. Qed.

(** C1, amended: on a record whose status is terminal, a later poll that
    reaches the provider writes the status the provider reports on that
    poll, so the status stays terminal exactly when the reported one is
    terminal; a poll whose fetch throws leaves the record, and with it the
    terminal status, as it was. *)
Theorem terminal_status_follows_provider replicate jobId w job :
  jobs w !! jobId = Some job ->
  is_terminal (status job) = true ->
  exists job',
    jobs (snd (api_status replicate jobId w)) !! jobId = Some job'
    /\ (forall prediction,
           predictions_get replicate (predictionId job) = Normal prediction ->
           status job' = pred_status prediction)
    /\ (forall e,
           predictions_get replicate (predictionId job) = Throw e ->
           job' = job)
    /\ is_terminal (status job') =
         match predictions_get replicate (predictionId job) with
         | Normal prediction => is_terminal (pred_status prediction)
         | Throw _ => true
         end.
Proof.
  intros Hjob Hterm.
  rewrite (api_status_jobs replicate jobId w job Hjob).
  destruct (predictions_get replicate (predictionId job)) as [p | e].
  - exists (reconcile p job). rewrite lookup_insert_eq, reconcile_status.
    repeat split.
    + intros p' Hp. injection Hp as <-. reflexivity.
    + intros e He. discriminate He.
  - exists job. split; [exact Hjob |]. split; [| split].
    + intros p Hp. discriminate Hp.
    + reflexivity.
    + exact Hterm.
Qed.

Lemma terminal_status_follows_provider_witness :
  let done := provider_reporting (sample_prediction "succeeded" sample_output) in
  let failed := provider_reporting (sample_prediction "failed" JNull) in
  let w1 := after done (GetStatus sample_jobId) sample_world in
  exists job',
    jobs (snd (api_status failed sample_jobId w1)) !! sample_jobId = Some job'
    /\ is_terminal (status job') = true.
Proof.
  intros done failed w1.
  destruct (terminal_status_follows_provider failed sample_jobId w1
              (reconcile (sample_prediction "succeeded" sample_output)
                 (new_job sample_body (sample_prediction "starting" JNull)
                    (sample_now + 412))))
    as (job' & Hl & _ & _ & Ht); [reflexivity | reflexivity |].
  exists job'. split; [exact Hl | exact Ht].
Defined.

(** A poll, of any identifier, keeps the [videoUrl] of a record that has
    one. *)
Lemma api_status_keeps_video replicate polled jobId w :
  has_video jobId w ->
  has_video jobId (after replicate (GetStatus polled) w).
Proof.
  intros (job & v & Hjob & Hv & Ht). unfold after, has_video. simpl.
  destruct (jobs w !! polled) as [pjob |] eqn:Hp.
  - rewrite (api_status_jobs replicate polled w pjob Hp).
    destruct (predictions_get replicate (predictionId pjob)) as [p | e].
    + destruct (decide (polled = jobId)) as [-> | Hne].
      * rewrite lookup_insert_eq.
        assert (pjob = job) as -> by congruence.
        exists (reconcile p job).
        destruct (truthy (pred_output p)) eqn:Eo.
        -- exists (pred_output p).
           rewrite reconcile_videoUrl, Eo. auto.
        -- exists v. rewrite reconcile_videoUrl, Eo. auto.
      * rewrite lookup_insert_ne by exact Hne. eauto.
    + eauto.
  - rewrite (api_status_unknown replicate polled w Hp). simpl. eauto.
Qed.

Lemma run_polls_keeps_video polls jobId w :
  has_video jobId w -> has_video jobId (run_polls polls w).
Proof.
  revert w. induction polls as [| [replicate polled] polls IH]; intros w H.
  - exact H.
  - simpl. apply IH. apply api_status_keeps_video. exact H.
Qed.

(** C2, as stated, fails: after a poll has returned succeeded with a
    videoUrl, a later poll on which the provider reports no output returns
    a null videoUrl, although the record still holds the earlier one. *)
Lemma later_poll_returns_null_videoUrl :
  let done := provider_reporting (sample_prediction "succeeded" sample_output) in
  let bare := provider_reporting (sample_prediction "succeeded" JNull) in
  let first := api_status done sample_jobId sample_world in
  let second := api_status bare sample_jobId (snd first) in
  (exists r1 r2,
      fst first = Normal r1 /\ fst second = Normal r2
      /\ js_get "status" (body r1) = JStr "succeeded"
      /\ js_get "videoUrl" (body r1) = sample_output
      /\ js_get "videoUrl" (body r2) = JNull)
  /\ (videoUrl <$> jobs (snd second) !! sample_jobId)
     = Some (Some sample_output).
Proof.
  simpl. split; [| reflexivity].
  eexists _, _. repeat split.
Qed.

(** C2, amended: once a poll has returned succeeded with a non-null
    videoUrl, the record of the job has a non-null videoUrl after that poll
    and after every run of later polls; the videoUrl returned by a later
    poll that reaches the provider is the output fetched on that poll, and
    null when that output is absent. *)
Theorem videoUrl_kept_in_record replicate jobId w r :
  fst (api_status replicate jobId w) = Normal r ->
  js_get "status" (body r) = JStr "succeeded" ->
  js_get "videoUrl" (body r) <> JNull ->
  (forall polls,
      has_video jobId (run_polls polls (snd (api_status replicate jobId w))))
  /\ (forall later w' job prediction,
         jobs w' !! jobId = Some job ->
         predictions_get later (predictionId job) = Normal prediction ->
         exists r',
           fst (api_status later jobId w') = Normal r'
           /\ js_get "videoUrl" (body r') = js_or (pred_output prediction) JNull).
Proof.
  intros Hr Hs Hnull. split.
  - intros polls. apply run_polls_keeps_video.
    destruct (jobs w !! jobId) as [job |] eqn:Hjob.
    + revert Hr. rewrite (api_status_known replicate jobId w job Hjob).
      destruct (predictions_get replicate (predictionId job)) as [p | e];
        simpl; intros Hr; injection Hr as <-.
      * simpl in Hnull. unfold js_or in Hnull.
        destruct (truthy (pred_output p)) eqn:Eo; [| congruence].
        exists (reconcile p job), (pred_output p). split; [| split].
        -- apply lookup_insert_eq.
        -- rewrite reconcile_videoUrl, Eo. reflexivity.
        -- exact Eo.
      * discriminate Hs.
    + revert Hr. rewrite (api_status_unknown replicate jobId w Hjob). simpl.
      intros Hr. injection Hr as <-. discriminate Hs.
  - intros later w' job p Hjob Hp.
    rewrite (api_status_known later jobId w' job Hjob), Hp. simpl.
    eexists. split; reflexivity.
Qed.

Lemma videoUrl_kept_in_record_witness :
  let done := provider_reporting (sample_prediction "succeeded" sample_output) in
  let bare := provider_reporting (sample_prediction "succeeded" JNull) in
  has_video sample_jobId
    (run_polls [(bare, sample_jobId); (provider_failing "Bad Gateway", sample_jobId)]
       (snd (api_status done sample_jobId sample_world))).
Proof.
  intros done bare.
  destruct (videoUrl_kept_in_record done sample_jobId sample_world
              (status_ok_response sample_jobId
                 (sample_prediction "succeeded" sample_output)))
    as (Hk & _).
  - reflexivity.
  - reflexivity.
  - simpl. discriminate.
  - apply Hk.
Defined.

(** ** The status invariant *)

(** A request changes the job map only by storing a new job, whose status
    is processing, or a reconciled job, whose status is the one fetched. *)
Lemma serve_status_origin replicate r w jobId job :
  jobs (after replicate r w) !! jobId = Some job ->
  jobs w !! jobId = Some job
  \/ status job = JStr "processing"
  \/ exists id prediction,
       predictions_get replicate id = Normal prediction
       /\ status job = pred_status prediction.
Proof.
  unfold after. destruct r as [now created req | polled]; simpl.
  - destruct (both_inputs_present req) eqn:E.
    + rewrite (api_generate_submits now created replicate req w E).
      destruct (predictions_create replicate (create_options req)) as [p | e];
        simpl; [| tauto].
      destruct (decide (toString now = jobId)) as [<- | Hne].
      * rewrite lookup_insert_eq. intros H. injection H as <-. right. left.
        reflexivity.
      * rewrite lookup_insert_ne by exact Hne. tauto.
    + rewrite (api_generate_rejects now created replicate req w E). simpl. tauto.
  - destruct (jobs w !! polled) as [pjob |] eqn:Hp.
    + rewrite (api_status_jobs replicate polled w pjob Hp).
      destruct (predictions_get replicate (predictionId pjob)) as [p | e] eqn:Ep;
        [| tauto].
      destruct (decide (polled = jobId)) as [<- | Hne].
      * rewrite lookup_insert_eq. intros H. injection H as <-. right. right.
        exists (predictionId pjob), p. split; [exact Ep | apply reconcile_status].
      * rewrite lookup_insert_ne by exact Hne. tauto.
    + rewrite (api_status_unknown replicate polled w Hp). simpl. tauto.
Qed.

(** C7, as stated, fails: a generate request followed by a poll on which
    the provider reports starting leaves a record whose status is outside
    the enumeration. *)
Lemma status_outside_enumeration :
  let w := after (provider_reporting (sample_prediction "starting" JNull))
                 (GetStatus sample_jobId) sample_world in
  reachable w
  /\ (status <$> jobs w !! sample_jobId) = Some (JStr "starting")
  /\ (valid_status <$> (status <$> jobs w !! sample_jobId)) = Some false.
Proof.
  split; [| split; reflexivity].
  apply reachable_step; [| trivial].
  apply reachable_step; [| trivial].
  apply reachable_start.
Qed.

(** C7, amended: in every reachable state, the status of every record is
    processing, as written by generate, or a status that the provider
    reported on a fetch; so it is an element of
    {pending, processing, succeeded, failed} whenever the provider reports
    only statuses of that set. *)
Theorem status_mirrors_provider (P : JsValue -> Prop) w jobId job :
  reachable_reporting P w ->
  jobs w !! jobId = Some job ->
  (status job = JStr "processing" \/ P (status job))
  /\ ((forall v, P v -> valid_status v = true) ->
      valid_status (status job) = true).
Proof.
  intros Hreach Hjob.
  assert (Hinv : status job = JStr "processing" \/ P (status job)).
  { revert jobId job Hjob.
    induction Hreach as [| w replicate r Hreach IH Hprov]; intros jobId job Hjob.
    - simpl in Hjob. rewrite lookup_empty in Hjob. discriminate Hjob.
    - destruct (serve_status_origin replicate r w jobId job Hjob)
        as [Hold | [Hnew | (id & p & Hp & Hs)]].
      + exact (IH jobId job Hold).
      + left. exact Hnew.
      + right. rewrite Hs. exact (Hprov id p Hp). }
  split; [exact Hinv |].
  intros HP. destruct Hinv as [-> | H]; [reflexivity | exact (HP _ H)].
Qed.

Lemma status_mirrors_provider_witness :
  let w := after (provider_reporting (sample_prediction "succeeded" sample_output))
                 (GetStatus sample_jobId)
                 (after (provider_reporting (sample_prediction "processing" JNull))
                        (PostGenerate sample_now (sample_now + 412) sample_body)
                        initial_world) in
  exists job,
    jobs w !! sample_jobId = Some job /\ valid_status (status job) = true.
Proof.
  intros w. eexists. split; [reflexivity |].
  apply (status_mirrors_provider (fun v => valid_status v = true) w sample_jobId).
  - apply reachable_step.
    + apply reachable_step.
      * apply reachable_start.
      * intros id p H. injection H as <-. reflexivity.
    + intros id p H. injection H as <-. reflexivity.
  - reflexivity.
  - trivial.
Defined.

(** * Further properties of the handlers *)

(** ** Answers and provider traffic *)

(** X1: a poll is answered 404 exactly when the polled identifier is not a
    key of the job map, never because of the provider; such a poll makes no
    provider call and leaves the whole state as it was. *)
Theorem status_not_found_iff_unknown replicate jobId w :
  exists r,
    fst (api_status replicate jobId w) = Normal r
    /\ (statusCode r = 404 <-> jobs w !! jobId = None)
    /\ (jobs w !! jobId = None ->
        r = error_response 404 (JStr "Job not found")
        /\ snd (api_status replicate jobId w) = w).
Proof.
  destruct (jobs w !! jobId) as [job |] eqn:Hjob.
  - rewrite (api_status_known replicate jobId w job Hjob).
    destruct (predictions_get replicate (predictionId job)) as [p | e]; simpl;
      eexists; (split; [reflexivity |]); simpl;
      (split; [split; intros H; discriminate H | intros H; discriminate H]).
  - rewrite (api_status_unknown replicate jobId w Hjob). simpl.
    eexists. split; [reflexivity |]. simpl. repeat split.
Qed.

(** X2: no exception escapes a handler, and the status code of the answer is
    200, 400 or 500 for a generate request and 200, 404 or 500 for a poll. *)
Theorem serve_status_codes replicate r w :
  exists response,
    fst (serve replicate r w) = Normal response
    /\ match r with
       | PostGenerate _ _ _ =>
           statusCode response = 200 \/ statusCode response = 400
           \/ statusCode response = 500
       | GetStatus _ =>
           statusCode response = 200 \/ statusCode response = 404
           \/ statusCode response = 500
       end.
Proof.
  destruct r as [now created req | jobId]; simpl.
  - destruct (both_inputs_present req) eqn:E.
    + rewrite (api_generate_submits now created replicate req w E).
      destruct (predictions_create replicate (create_options req));
        simpl; eexists; (split; [reflexivity |]); simpl; tauto.
    + rewrite (api_generate_rejects now created replicate req w E). simpl.
      eexists. split; [reflexivity |]. simpl. tauto.
  - destruct (jobs w !! jobId) as [job |] eqn:Hjob.
    + rewrite (api_status_known replicate jobId w job Hjob).
      destruct (predictions_get replicate (predictionId job));
        simpl; eexists; (split; [reflexivity |]); simpl; tauto.
    + rewrite (api_status_unknown replicate jobId w Hjob). simpl.
      eexists. split; [reflexivity |]. simpl. tauto.
Qed.

(** X3: a generate request is answered 400 exactly when one of its two
    inputs is falsy; the check is on truthiness only, so any truthy value, a
    string or not, passes it. *)
Theorem generate_rejects_iff_falsy now created replicate req w :
  exists r,
    fst (api_generate now created replicate req w) = Normal r
    /\ (statusCode r = 400 <->
        truthy (body_characterImageUrl req) = false
        \/ truthy (body_motionVideoUrl req) = false).
Proof.
  destruct (both_inputs_present req) eqn:E.
  - rewrite (api_generate_submits now created replicate req w E).
    unfold both_inputs_present in E. apply andb_prop in E as [E1 E2].
    rewrite E1, E2.
    destruct (predictions_create replicate (create_options req)); simpl;
      eexists; (split; [reflexivity |]); simpl;
      (split; [intros H; discriminate H | intros [H | H]; discriminate H]).
  - rewrite (api_generate_rejects now created replicate req w E). simpl.
    eexists. split; [reflexivity |]. simpl. split; [| reflexivity].
    intros _. unfold both_inputs_present in E.
    apply andb_false_iff in E. exact E.
Qed.

(** X4: the provider traffic of a request. A generate request makes one
    call, the submission, when both inputs are truthy and none otherwise; a
    poll makes one call, the fetch of the prediction id stored in the record,
    when the job is known and none otherwise. Earlier entries of the trace
    are kept. *)
Theorem serve_provider_traffic replicate r w :
  calls (after replicate r w) =
    (calls w ++
     match r with
     | PostGenerate _ _ req =>
         if both_inputs_present req
         then [PredictionsCreate (create_options req)]
         else []
     | GetStatus jobId =>
         match jobs w !! jobId with
         | Some job => [PredictionsGet (predictionId job)]
         | None => []
         end
     end)%list.
Proof.
  unfold after. destruct r as [now created req | jobId]; simpl.
  - destruct (both_inputs_present req) eqn:E.
    + rewrite (api_generate_submits now created replicate req w E).
      destruct (predictions_create replicate (create_options req)); reflexivity.
    + rewrite (api_generate_rejects now created replicate req w E). simpl.
      symmetry. apply app_nil_r.
  - destruct (jobs w !! jobId) as [job |] eqn:Hjob.
    + rewrite (api_status_known replicate jobId w job Hjob).
      destruct (predictions_get replicate (predictionId job)); reflexivity.
    + rewrite (api_status_unknown replicate jobId w Hjob). simpl.
      symmetry. apply app_nil_r.
Qed.

(** ** What a poll leaves alone *)

(** X5: a poll leaves every entry other than the polled one as it was, and
    neither adds nor removes a key: the key set and the size of the job map
    are unchanged. *)
Theorem status_frame replicate jobId w :
  (forall other,
      other <> jobId ->
      jobs (snd (api_status replicate jobId w)) !! other = jobs w !! other)
  /\ dom (jobs (snd (api_status replicate jobId w))) = dom (jobs w)
  /\ size (jobs (snd (api_status replicate jobId w))) = size (jobs w).
Proof.
  destruct (jobs w !! jobId) as [job |] eqn:Hjob.
  - rewrite (api_status_jobs replicate jobId w job Hjob).
    destruct (predictions_get replicate (predictionId job)) as [p | e].
    + split; [| split].
      * intros other Hne. apply lookup_insert_ne. congruence.
      * apply dom_insert_lookup_L. rewrite Hjob. eauto.
      * apply map_size_insert_Some. rewrite Hjob. eauto.
    + repeat split.
  - rewrite (api_status_unknown replicate jobId w Hjob). simpl. repeat split.
Qed.

Lemma reconcile_creation_fields prediction job :
  creation_fields (reconcile prediction job) = creation_fields job.
Proof. unfold reconcile. destruct (truthy (pred_output prediction)); reflexivity. Qed.

Lemma api_status_keeps_creation_fields replicate polled jobId w job :
  jobs w !! jobId = Some job ->
  exists job',
    jobs (after replicate (GetStatus polled) w) !! jobId = Some job'
    /\ creation_fields job' = creation_fields job.
Proof.
  intros Hjob. unfold after. simpl.
  destruct (jobs w !! polled) as [pjob |] eqn:Hp.
  - rewrite (api_status_jobs replicate polled w pjob Hp).
    destruct (predictions_get replicate (predictionId pjob)) as [p | e].
    + destruct (decide (polled = jobId)) as [-> | Hne].
      * rewrite lookup_insert_eq. assert (pjob = job) as -> by congruence.
        exists (reconcile p job). split; [reflexivity |].
        apply reconcile_creation_fields.
      * rewrite lookup_insert_ne by exact Hne. eauto.
    + eauto.
  - rewrite (api_status_unknown replicate polled w Hp). simpl. eauto.
Qed.

Lemma run_polls_creation_fields polls jobId w job :
  jobs w !! jobId = Some job ->
  exists job',
    jobs (run_polls polls w) !! jobId = Some job'
    /\ creation_fields job' = creation_fields job.
Proof.
  revert w job.
  induction polls as [| [replicate polled] polls IH]; intros w job Hjob.
  - exists job. split; [exact Hjob | reflexivity].
  - simpl.
    destruct (api_status_keeps_creation_fields replicate polled jobId w job Hjob)
      as (job1 & H1 & E1).
    destruct (IH _ job1 H1) as (job' & H' & E').
    exists job'. split; [exact H' | congruence].
Qed.

(** X6: polls write nothing but the status and the videoUrl of a record:
    after any run of polls, of this job or of others, the prediction id, the
    two input references, the prompt and the creation time of a record are
    what they were. *)
Theorem run_polls_keeps_creation_fields polls jobId w job :
  jobs w !! jobId = Some job ->
  exists job',
    jobs (run_polls polls w) !! jobId = Some job'
    /\ predictionId job' = predictionId job
    /\ characterImageUrl job' = characterImageUrl job
    /\ motionVideoUrl job' = motionVideoUrl job
    /\ prompt job' = prompt job
    /\ createdAt job' = createdAt job.
Proof.
  intros Hjob.
  destruct (run_polls_creation_fields polls jobId w job Hjob) as (job' & H' & E).
  exists job'. split; [exact H' |].
  unfold creation_fields in E. injection E as -> -> -> -> ->. repeat split.
Qed.

Lemma run_polls_keeps_creation_fields_witness :
  let done := provider_reporting (sample_prediction "succeeded" sample_output) in
  exists job',
    jobs (run_polls [(done, sample_jobId); (done, "42")] sample_world)
      !! sample_jobId = Some job'
    /\ predictionId job' = JStr "ufawqhfynnddngldkgtslldrkq".
Proof.
  intros done.
  destruct (run_polls_keeps_creation_fields
              [(done, sample_jobId); (done, "42")] sample_jobId sample_world
              (new_job sample_body (sample_prediction "starting" JNull)
                 (sample_now + 412)))
    as (job' & Hl & Hp & _); [reflexivity |].
  exists job'. split; [exact Hl | exact Hp].
Defined.

(** A request removes no key from the job map. *)
Lemma serve_keeps_keys replicate r w jobId :
  is_Some (jobs w !! jobId) ->
  is_Some (jobs (after replicate r w) !! jobId).
Proof.
  intros Hk. unfold after. destruct r as [now created req | polled]; simpl.
  - destruct (both_inputs_present req) eqn:E.
    + rewrite (api_generate_submits now created replicate req w E).
      destruct (predictions_create replicate (create_options req)); simpl;
        [| exact Hk].
      apply lookup_insert_is_Some'. right. exact Hk.
    + rewrite (api_generate_rejects now created replicate req w E). exact Hk.
  - destruct (jobs w !! polled) as [pjob |] eqn:Hp.
    + rewrite (api_status_jobs replicate polled w pjob Hp).
      destruct (predictions_get replicate (predictionId pjob)); [| exact Hk].
      apply lookup_insert_is_Some'. right. exact Hk.
    + rewrite (api_status_unknown replicate polled w Hp). exact Hk.
Qed.

Lemma run_keeps_keys steps w jobId :
  is_Some (jobs w !! jobId) -> is_Some (jobs (run steps w) !! jobId).
Proof.
  revert w. induction steps as [| [replicate r] steps IH]; intros w Hk.
  - exact Hk.
  - simpl. apply IH. apply serve_keeps_keys. exact Hk.
Qed.

(** X7: no request deletes a record. After a generate request answered 200,
    whatever requests are served next, a poll with the identifier it
    returned is never answered 404. *)
Theorem generated_job_always_found now created replicate req w r steps later :
  fst (api_generate now created replicate req w) = Normal r ->
  statusCode r = 200 ->
  js_get "jobId" (body r) = JStr (toString now)
  /\ exists r',
       fst (api_status later (toString now)
              (run steps (snd (api_generate now created replicate req w))))
       = Normal r'
       /\ statusCode r' <> 404.
Proof.
  intros Hr Hc.
  destruct (api_generate_success now created replicate req w r Hr Hc)
    as (p & _ & _ & -> & Hw).
  split; [reflexivity |].
  assert (Hk : is_Some (jobs (run steps
                  (snd (api_generate now created replicate req w)))
                  !! toString now)).
  { apply run_keeps_keys. rewrite Hw. simpl. rewrite lookup_insert_eq. eauto. }
  destruct Hk as [job Hjob].
  rewrite (api_status_known later (toString now) _ job Hjob).
  destruct (predictions_get later (predictionId job)); simpl;
    eexists; (split; [reflexivity |]); simpl; discriminate.
Qed.

Lemma generated_job_always_found_witness :
  let replicate := provider_reporting (sample_prediction "starting" JNull) in
  let steps :=
    [ (provider_failing "Bad Gateway", GetStatus sample_jobId);
      (replicate, PostGenerate (sample_now + 7) (sample_now + 500) sample_body) ] in
  exists r',
    fst (api_status replicate (toString sample_now)
           (run steps (snd (api_generate sample_now (sample_now + 412) replicate
                              sample_body initial_world))))
    = Normal r'
    /\ statusCode r' <> 404.
Proof.
  intros replicate steps.
  destruct (generated_job_always_found sample_now (sample_now + 412) replicate
              sample_body initial_world
              (generate_ok_response sample_now
                 (sample_prediction "starting" JNull))
              steps replicate)
    as (_ & H); [reflexivity | reflexivity | exact H].
Defined.

(** X8: a generate request answered 200 stores, under the identifier it
    returns, a record with the prediction id it returns, status processing
    whatever status the provider gave the new prediction, and no videoUrl;
    from then on, after any run of polls, a poll of that identifier fetches
    exactly the prediction created for the job. *)
Theorem poll_fetches_created_prediction
    now created replicate req w r polls later :
  fst (api_generate now created replicate req w) = Normal r ->
  statusCode r = 200 ->
  exists prediction,
    predictions_create replicate (create_options req) = Normal prediction
    /\ js_get "predictionId" (body r) = pred_id prediction
    /\ js_get "status" (body r) = JStr "processing"
    /\ jobs (snd (api_generate now created replicate req w)) !! toString now
       = Some {| predictionId := pred_id prediction;
                 status := JStr "processing";
                 characterImageUrl := body_characterImageUrl req;
                 motionVideoUrl := body_motionVideoUrl req;
                 prompt := body_prompt req;
                 createdAt := created;
                 videoUrl := None |}
    /\ calls (snd (api_status later (toString now)
                     (run_polls polls
                        (snd (api_generate now created replicate req w)))))
       = (calls (run_polls polls
                   (snd (api_generate now created replicate req w)))
          ++ [PredictionsGet (pred_id prediction)])%list.
Proof.
  intros Hr Hc.
  destruct (api_generate_success now created replicate req w r Hr Hc)
    as (p & _ & Hp & -> & Hw).
  exists p. split; [exact Hp |]. split; [reflexivity |]. split; [reflexivity |].
  assert (Hjob : jobs (snd (api_generate now created replicate req w))
                   !! toString now = Some (new_job req p created)).
  { rewrite Hw. simpl. apply lookup_insert_eq. }
  split; [exact Hjob |].
  destruct (run_polls_creation_fields polls (toString now) _ _ Hjob)
    as (job' & Hjob' & E).
  assert (Hid : predictionId job' = predictionId (new_job req p created)).
  { unfold creation_fields in E. congruence. }
  rewrite (api_status_known later (toString now) _ job' Hjob'), Hid.
  destruct (predictions_get later (predictionId (new_job req p created)));
    reflexivity.
Qed.

Lemma poll_fetches_created_prediction_witness :
  let replicate := provider_reporting (sample_prediction "starting" JNull) in
  let done := provider_reporting (sample_prediction "succeeded" sample_output) in
  calls (snd (api_status done (toString sample_now)
                (run_polls [(done, sample_jobId)] sample_world)))
  = [ PredictionsCreate (create_options sample_body);
      PredictionsGet (JStr "ufawqhfynnddngldkgtslldrkq");
      PredictionsGet (JStr "ufawqhfynnddngldkgtslldrkq") ].
Proof.
  intros replicate done.
  destruct (poll_fetches_created_prediction sample_now (sample_now + 412)
              replicate sample_body initial_world
              (generate_ok_response sample_now
                 (sample_prediction "starting" JNull))
              [(done, sample_jobId)] done)
    as (p & Hp & _ & _ & _ & Hc); [reflexivity | reflexivity |].
  injection Hp as <-. exact Hc.
Defined.

(** ** Invariants of the reachable states *)

(** What a request can do to the state: nothing, log a provider call, store
    a new job after a submission, or store a reconciled job after a fetch. *)
Lemma after_cases replicate r w :
  after replicate r w = w
  \/ (exists c, after replicate r w = log_call c w)
  \/ (exists now created req p,
        after replicate r w =
          store_job (toString now) (new_job req p created)
            (log_call (PredictionsCreate (create_options req)) w))
  \/ (exists jobId job p,
        jobs w !! jobId = Some job
        /\ after replicate r w =
             store_job jobId (reconcile p job)
               (log_call (PredictionsGet (predictionId job)) w)).
Proof.
  unfold after. destruct r as [now created req | jobId]; simpl.
  - destruct (both_inputs_present req) eqn:E.
    + rewrite (api_generate_submits now created replicate req w E).
      destruct (predictions_create replicate (create_options req)) as [p | e];
        simpl.
      * right. right. left. exists now, created, req, p. reflexivity.
      * right. left. eauto.
    + rewrite (api_generate_rejects now created replicate req w E). left.
      reflexivity.
  - destruct (jobs w !! jobId) as [job |] eqn:Hjob.
    + rewrite (api_status_known replicate jobId w job Hjob).
      destruct (predictions_get replicate (predictionId job)) as [p | e]; simpl.
      * right. right. right. exists jobId, job, p. split; [exact Hjob | reflexivity].
      * right. left. eauto.
    + rewrite (api_status_unknown replicate jobId w Hjob). left. reflexivity.
Qed.

Lemma submissions_snoc trace c :
  submissions (trace ++ [c]) =
    (submissions trace ++
     match c with
     | PredictionsCreate o => [o]
     | PredictionsGet _ => []
     end)%list.
Proof.
  unfold submissions. rewrite flat_map_app. simpl. rewrite app_nil_r.
  reflexivity.
Qed.

(** X9: in every reachable state the job map holds no more records than
    submissions were made to the provider, and every key of the map is the
    decimal numeral of a clock reading: records come from submissions
    only. *)
Theorem jobs_backed_by_submissions w :
  reachable w ->
  (size (jobs w) <= length (submissions (calls w)))%nat
  /\ forall jobId, is_Some (jobs w !! jobId) -> exists now, jobId = toString now.
Proof.
  unfold reachable.
  induction 1 as [| w replicate r Hreach [IHsize IHkeys] _].
  - simpl. split.
    + rewrite map_size_empty. lia.
    + intros jobId [job Hjob]. rewrite lookup_empty in Hjob. discriminate Hjob.
  - destruct (after_cases replicate r w)
      as [-> | [(c & ->) | [(now & created & req & p & ->)
                           | (jobId & job & p & Hjob & ->)]]].
    + split; assumption.
    + simpl. split; [| exact IHkeys].
      rewrite submissions_snoc, length_app. lia.
    + simpl. split.
      * rewrite submissions_snoc, length_app, map_size_insert. simpl.
        destruct (jobs w !! toString now); simpl; lia.
      * intros jobId Hk. apply lookup_insert_is_Some' in Hk as [<- | Hk];
          [eauto | exact (IHkeys jobId Hk)].
    + simpl. split.
      * rewrite submissions_snoc, app_nil_r.
        rewrite map_size_insert_Some by (rewrite Hjob; eauto). exact IHsize.
      * intros other Hk. apply lookup_insert_is_Some' in Hk as [<- | Hk];
          [apply IHkeys; rewrite Hjob; eauto | exact (IHkeys other Hk)].
Qed.

Lemma jobs_backed_by_submissions_witness :
  (size (jobs sample_world) <= length (submissions (calls sample_world)))%nat.
Proof.
  destruct (jobs_backed_by_submissions sample_world) as [H _]; [| exact H].
  apply reachable_step; [apply reachable_start | trivial].
Defined.

(** X10: in every reachable state a record either has no videoUrl or has a
    truthy one: null, undefined and the empty string are never stored. *)
Theorem stored_videoUrl_truthy w jobId job v :
  reachable w ->
  jobs w !! jobId = Some job ->
  videoUrl job = Some v ->
  truthy v = true.
Proof.
  unfold reachable. intros Hreach. revert jobId job v.
  induction Hreach as [| w replicate r Hreach IH _]; intros jobId job v Hjob Hv.
  - simpl in Hjob. rewrite lookup_empty in Hjob. discriminate Hjob.
  - destruct (after_cases replicate r w)
      as [E | [(c & E) | [(now & created & req & p & E)
                         | (polled & pjob & p & Hp & E)]]];
      rewrite E in Hjob; simpl in Hjob.
    + exact (IH _ _ _ Hjob Hv).
    + exact (IH _ _ _ Hjob Hv).
    + destruct (decide (toString now = jobId)) as [<- | Hne].
      * rewrite lookup_insert_eq in Hjob. injection Hjob as <-.
        discriminate Hv.
      * rewrite lookup_insert_ne in Hjob by exact Hne. exact (IH _ _ _ Hjob Hv).
    + destruct (decide (polled = jobId)) as [<- | Hne].
      * rewrite lookup_insert_eq in Hjob. injection Hjob as <-.
        rewrite reconcile_videoUrl in Hv.
        destruct (truthy (pred_output p)) eqn:Eo.
        -- injection Hv as <-. exact Eo.
        -- exact (IH _ _ _ Hp Hv).
      * rewrite lookup_insert_ne in Hjob by exact Hne. exact (IH _ _ _ Hjob Hv).
Qed.

Lemma stored_videoUrl_truthy_witness : truthy sample_output = true.
Proof.
  apply (stored_videoUrl_truthy
           (after (provider_reporting (sample_prediction "succeeded" sample_output))
                  (GetStatus sample_jobId) sample_world)
           sample_jobId
           (reconcile (sample_prediction "succeeded" sample_output)
              (new_job sample_body (sample_prediction "starting" JNull)
                 (sample_now + 412)))).
  - apply reachable_step; [| trivial].
    apply reachable_step; [apply reachable_start | trivial].
  - reflexivity.
  - reflexivity.
Defined.

(** ** What a poll answers *)

(** X11: a poll answered 200 has stored what it answers: the status of the
    record is the status of the answer, and when the videoUrl of the answer
    is not null it is the videoUrl of the record. *)
Theorem status_answer_matches_record replicate jobId w r :
  fst (api_status replicate jobId w) = Normal r ->
  statusCode r = 200 ->
  exists job',
    jobs (snd (api_status replicate jobId w)) !! jobId = Some job'
    /\ status job' = js_get "status" (body r)
    /\ (js_get "videoUrl" (body r) <> JNull ->
        videoUrl job' = Some (js_get "videoUrl" (body r))).
Proof.
  destruct (jobs w !! jobId) as [job |] eqn:Hjob.
  - rewrite (api_status_known replicate jobId w job Hjob).
    destruct (predictions_get replicate (predictionId job)) as [p | e]; simpl;
      intros Hr Hc; injection Hr as <-; [| discriminate Hc].
    exists (reconcile p job). split; [apply lookup_insert_eq |].
    split; [apply reconcile_status |].
    simpl. rewrite reconcile_videoUrl. unfold js_or.
    destruct (truthy (pred_output p)); [reflexivity | congruence].
  - rewrite (api_status_unknown replicate jobId w Hjob). simpl.
    intros Hr Hc. injection Hr as <-. discriminate Hc.
Qed.

Lemma status_answer_matches_record_witness :
  let done := provider_reporting (sample_prediction "succeeded" sample_output) in
  exists job',
    jobs (snd (api_status done sample_jobId sample_world)) !! sample_jobId
      = Some job'
    /\ status job' = JStr "succeeded"
    /\ videoUrl job' = Some sample_output.
Proof.
  intros done.
  destruct (status_answer_matches_record done sample_jobId sample_world
              (status_ok_response sample_jobId
                 (sample_prediction "succeeded" sample_output)))
    as (job' & Hl & Hs & Hv); [reflexivity | reflexivity |].
  exists job'. split; [exact Hl |]. split; [exact Hs |].
  apply Hv. discriminate.
Defined.

(** X12: in a poll answered 200 the jobId is the polled one, and the
    videoUrl and the error are each null or truthy: a falsy output or error
    of the provider (absent, empty string, zero, false) is answered as
    null. *)
Theorem status_answer_fields replicate jobId w r :
  fst (api_status replicate jobId w) = Normal r ->
  statusCode r = 200 ->
  js_get "jobId" (body r) = JStr jobId
  /\ (js_get "videoUrl" (body r) = JNull
      \/ truthy (js_get "videoUrl" (body r)) = true)
  /\ (js_get "error" (body r) = JNull
      \/ truthy (js_get "error" (body r)) = true).
Proof.
  destruct (jobs w !! jobId) as [job |] eqn:Hjob.
  - rewrite (api_status_known replicate jobId w job Hjob).
    destruct (predictions_get replicate (predictionId job)) as [p | e]; simpl;
      intros Hr Hc; injection Hr as <-; [| discriminate Hc].
    simpl. unfold js_or. split; [reflexivity |]. split.
    + destruct (truthy (pred_output p)) eqn:E; auto.
    + destruct (truthy (pred_error p)) eqn:E; auto.
  - rewrite (api_status_unknown replicate jobId w Hjob). simpl.
    intros Hr Hc. injection Hr as <-. discriminate Hc.
Qed.

Lemma status_answer_fields_witness :
  let empty := provider_reporting (sample_prediction "processing" (JStr "")) in
  js_get "videoUrl"
    (body (status_ok_response sample_jobId (sample_prediction "processing" (JStr ""))))
  = JNull
  \/ truthy (js_get "videoUrl"
               (body (status_ok_response sample_jobId
                        (sample_prediction "processing" (JStr ""))))) = true.
Proof.
  intros empty.
  destruct (status_answer_fields empty sample_jobId sample_world
              (status_ok_response sample_jobId
                 (sample_prediction "processing" (JStr ""))))
    as (_ & Hv & _); [reflexivity | reflexivity | exact Hv].
Defined.

(** ** Uploads *)

Lemma api_upload_same_answer req f :
  file req = Some f ->
  api_upload_image req = api_upload_video req
  /\ api_upload_image req =
       json [ ("success", JBool true);
              ("filename", JStr (filename f));
              ("path", JStr ("/uploads/" ++ filename f));
              ("url", JStr (protocol req ++ "://" ++ interpolate (host req)
                            ++ "/uploads/" ++ filename f)) ].
Proof.
  intros Hf. unfold api_upload_image, api_upload_video. rewrite Hf.
  split; reflexivity.
Qed.

(** X13: the url answered by an upload is its origin followed by its path,
    and its path is the name of the stored file under /uploads/; the image
    and the video handler answer a request that carries a file alike. *)
Theorem upload_answer_shape req f :
  file req = Some f ->
  api_upload_image req = api_upload_video req
  /\ statusCode (api_upload_image req) = 200
  /\ exists path,
       js_get "path" (body (api_upload_image req)) = JStr path
       /\ path = "/uploads/" ++ filename f
       /\ js_get "filename" (body (api_upload_image req)) = JStr (filename f)
       /\ js_get "url" (body (api_upload_image req))
          = JStr (protocol req ++ "://" ++ interpolate (host req) ++ path).
Proof.
  intros Hf. destruct (api_upload_same_answer req f Hf) as [Hsame Hshape].
  split; [exact Hsame |]. rewrite Hshape. split; [reflexivity |].
  exists ("/uploads/" ++ filename f). repeat split.
Qed.

Lemma upload_answer_shape_witness :
  js_get "url" (body (api_upload_image sample_upload))
  = JStr "http://localhost:5000/uploads/1700000000000.png".
Proof.
  destruct (upload_answer_shape sample_upload
              {| originalname := "hero.png"; filename := "1700000000000.png" |})
    as (_ & _ & path & _ & -> & _ & Hu); [reflexivity | exact Hu].
Defined.

(** X14: the urls answered by an image upload and a video upload that carry
    a file pass the input check of generate: the request built from them is
    not answered 400, and its submission has the video url as [path]. *)
Theorem uploaded_urls_accepted
    image video fi fv prompt_value now created replicate w :
  file image = Some fi ->
  file video = Some fv ->
  let req :=
    {| body_characterImageUrl := js_get "url" (body (api_upload_image image));
       body_motionVideoUrl := js_get "url" (body (api_upload_video video));
       body_prompt := prompt_value |} in
  (exists r,
      fst (api_generate now created replicate req w) = Normal r
      /\ statusCode r <> 400)
  /\ calls (snd (api_generate now created replicate req w))
     = (calls w ++ [PredictionsCreate (create_options req)])%list
  /\ js_get "path" (input (create_options req))
     = JStr (protocol video ++ "://" ++ interpolate (host video)
             ++ "/uploads/" ++ filename fv).
Proof.
  intros Hi Hv req.
  assert (E : both_inputs_present req = true).
  { unfold both_inputs_present, req, api_upload_image, api_upload_video.
    rewrite Hi, Hv. simpl.
    destruct (protocol image), (protocol video); reflexivity. }
  rewrite (api_generate_submits now created replicate req w E).
  split; [| split].
  - destruct (predictions_create replicate (create_options req));
      eexists; (split; [reflexivity |]); simpl; discriminate.
  - destruct (predictions_create replicate (create_options req)); reflexivity.
  - unfold req, api_upload_video. rewrite Hv. reflexivity.
Qed.

Lemma uploaded_urls_accepted_witness :
  let req :=
    {| body_characterImageUrl := js_get "url" (body (api_upload_image sample_upload));
       body_motionVideoUrl := js_get "url" (body (api_upload_video sample_upload));
       body_prompt := JUndefined |} in
  exists r,
    fst (api_generate sample_now sample_now (provider_failing "Unauthorized")
           req initial_world) = Normal r
    /\ statusCode r <> 400.
Proof.
  destruct (uploaded_urls_accepted sample_upload sample_upload
              {| originalname := "hero.png"; filename := "1700000000000.png" |}
              {| originalname := "hero.png"; filename := "1700000000000.png" |}
              JUndefined sample_now sample_now
              (provider_failing "Unauthorized") initial_world)
    as (H & _); [reflexivity | reflexivity | exact H].
Defined.

(** X15: an upload request without a file is answered 400 with the message
    of its handler and no url; a generate request built from the url of such
    an answer is answered 400 and makes no provider call. *)
Theorem upload_without_file req other prompt_value now created replicate w :
  file req = None ->
  api_upload_image req = error_response 400 (JStr "No image file uploaded")
  /\ api_upload_video req = error_response 400 (JStr "No video file uploaded")
  /\ js_get "url" (body (api_upload_image req)) = JUndefined
  /\ js_get "url" (body (api_upload_video req)) = JUndefined
  /\ api_generate now created replicate
       {| body_characterImageUrl := js_get "url" (body (api_upload_image req));
          body_motionVideoUrl := other;
          body_prompt := prompt_value |} w
     = (Normal (error_response 400
                  (JStr "Character image and motion video are required")), w)
  /\ api_generate now created replicate
       {| body_characterImageUrl := other;
          body_motionVideoUrl := js_get "url" (body (api_upload_video req));
          body_prompt := prompt_value |} w
     = (Normal (error_response 400
                  (JStr "Character image and motion video are required")), w).
Proof.
  intros Hf. unfold api_upload_image, api_upload_video. rewrite Hf. simpl.
  do 4 (split; [reflexivity |]). split.
  - apply api_generate_rejects. reflexivity.
  - apply api_generate_rejects. unfold both_inputs_present. simpl.
    apply andb_false_r.
Qed.

Lemma upload_without_file_witness :
  api_upload_image {| protocol := "http"; host := Some "localhost:5000";
                      file := None |}
  = error_response 400 (JStr "No image file uploaded").
Proof.
  destruct (upload_without_file
              {| protocol := "http"; host := Some "localhost:5000"; file := None |}
              JNull JNull sample_now sample_now
              (provider_failing "Unauthorized") initial_world)
    as (H & _); [reflexivity | exact H].
Defined.

(** ** Names of the stored files *)

Lemma pretty_N_char_not_dot d : Ascii.eqb (pretty_N_char d) "." = false.
Proof. unfold pretty_N_char. repeat case_match; reflexivity. Qed.

Lemma pretty_N_go_dotless x s :
  mentions "." s = false -> mentions "." (pretty_N_go x s) = false.
Proof.
  revert s. induction (N.lt_wf_0 x) as [x _ IH]; intros s Hs.
  assert (x = 0 \/ 0 < x)%N as [-> | Hx] by lia.
  - rewrite pretty_N_go_0. exact Hs.
  - rewrite pretty_N_go_step by exact Hx. apply IH.
    + apply N.div_lt; lia.
    + simpl. rewrite pretty_N_char_not_dot. exact Hs.
Qed.

Lemma pretty_N_dotless (x : N) : mentions "." (pretty x) = false.
Proof.
  unfold pretty, pretty_N. case_decide; [reflexivity |].
  apply pretty_N_go_dotless. reflexivity.
Qed.

(** The numeral of a clock reading has no dot. *)
Lemma toString_dotless ms : mentions "." (toString ms) = false.
Proof.
  unfold toString, pretty, pretty_Z. destruct ms as [| p | p].
  - reflexivity.
  - apply pretty_N_dotless.
  - simpl. apply pretty_N_dotless.
Qed.

(** Two dotless strings followed by extensions are equal only part by
    part. *)
Lemma append_extension_inj s1 s2 e1 e2 :
  mentions "." s1 = false ->
  mentions "." s2 = false ->
  extension_shaped e1 ->
  extension_shaped e2 ->
  s1 ++ e1 = s2 ++ e2 ->
  s1 = s2 /\ e1 = e2.
Proof.
  revert s2. induction s1 as [| a s1 IH]; intros [| b s2] H1 H2 E1 E2 H;
    simpl in H.
  - split; [reflexivity | exact H].
  - exfalso. destruct E1 as [-> | [rest ->]]; [discriminate H |].
    injection H as <- _. simpl in H2. discriminate H2.
  - exfalso. destruct E2 as [-> | [rest ->]]; [discriminate H |].
    injection H as -> _. simpl in H1. discriminate H1.
  - injection H as <- H. simpl in H1, H2.
    apply orb_false_elim in H1 as [_ H1]. apply orb_false_elim in H2 as [_ H2].
    destruct (IH s2 H1 H2 E1 E2 H) as [-> ->]. split; reflexivity.
Qed.

(** X16: when [path.extname] answers the empty string or an extension that
    begins with a dot, the storage gives two files the same name exactly
    when they are uploaded at the same clock reading with the same
    extension: different readings give different names, and two uploads in
    one millisecond with the same extension share a name. *)
Theorem storage_filename_eq_iff extname now1 original1 now2 original2 :
  (forall p, extension_shaped (extname p)) ->
  storage_filename extname now1 original1
    = storage_filename extname now2 original2
  <-> now1 = now2 /\ extname original1 = extname original2.
Proof.
  intros Hshape. unfold storage_filename. split.
  - intros H.
    destruct (append_extension_inj _ _ _ _
                (toString_dotless now1) (toString_dotless now2)
                (Hshape original1) (Hshape original2) H) as [Hn He].
    split; [apply toString_inj, Hn | exact He].
  - intros [-> ->]. reflexivity.
Qed.

Lemma storage_filename_eq_iff_witness :
  let extname := fun p : string => if String.eqb p "notes" then "" else ".png" in
  storage_filename extname 1700000000000 "hero.png"
    = storage_filename extname 1700000000000 "villain.png"
  /\ storage_filename extname 1700000000000 "hero.png"
     <> storage_filename extname 1700000000001 "hero.png".
Proof.
  intros extname.
  assert (Hshape : forall p, extension_shaped (extname p)).
  { intros p. unfold extname. destruct (String.eqb p "notes").
    - left. reflexivity.
    - right. eexists. reflexivity. }
  split.
  - apply (storage_filename_eq_iff extname 1700000000000 "hero.png"
             1700000000000 "villain.png" Hshape).
    split; reflexivity.
  - intros H.
    apply (storage_filename_eq_iff extname 1700000000000 "hero.png"
             1700000000001 "hero.png" Hshape) in H as [H _].
    discriminate H.
Defined.

(** X17: two uploads to the same origin whose stored names were given by
    the storage at different clock readings are answered different urls. *)
Theorem uploads_at_distinct_times_distinct_urls
    extname req1 req2 f1 f2 now1 now2 :
  (forall p, extension_shaped (extname p)) ->
  file req1 = Some f1 ->
  file req2 = Some f2 ->
  filename f1 = storage_filename extname now1 (originalname f1) ->
  filename f2 = storage_filename extname now2 (originalname f2) ->
  protocol req1 = protocol req2 ->
  host req1 = host req2 ->
  now1 <> now2 ->
  js_get "url" (body (api_upload_image req1))
    <> js_get "url" (body (api_upload_image req2))
  /\ js_get "url" (body (api_upload_video req1))
     <> js_get "url" (body (api_upload_video req2)).
Proof.
  intros Hshape Hf1 Hf2 Hn1 Hn2 Hp Hh Hne.
  assert (Hdiff : filename f1 <> filename f2).
  { rewrite Hn1, Hn2. unfold storage_filename. intros H.
    destruct (append_extension_inj _ _ _ _
                (toString_dotless now1) (toString_dotless now2)
                (Hshape (originalname f1)) (Hshape (originalname f2)) H)
      as [Hn _].
    apply Hne, toString_inj, Hn. }
  unfold api_upload_image, api_upload_video. rewrite Hf1, Hf2, Hp, Hh. simpl.
  split; intros H; injection H as H; apply Hdiff;
    repeat (apply (inj (String.append _)) in H); exact H.
Qed.

Lemma uploads_at_distinct_times_distinct_urls_witness :
  let later :=
    {| protocol := "http"; host := Some "localhost:5000";
       file := Some {| originalname := "dance.mp4";
                       filename := "1700000000731.mp4" |} |} in
  js_get "url" (body (api_upload_image sample_upload))
    <> js_get "url" (body (api_upload_image later)).
Proof.
  intros later.
  destruct (uploads_at_distinct_times_distinct_urls
              (fun p : string => if String.eqb p "hero.png" then ".png" else ".mp4")
              sample_upload later
              {| originalname := "hero.png"; filename := "1700000000000.png" |}
              {| originalname := "dance.mp4"; filename := "1700000000731.mp4" |}
              1700000000000 1700000000731) as [H _]; try reflexivity.
  - intros p. right. destruct (String.eqb p "hero.png"); eexists; reflexivity.
  - discriminate.
  - exact H.
Defined.

(** ** Runs of polls *)

(** X18: while the provider cannot be reached, polling changes nothing:
    after any run of polls whose fetches all throw, the job map is what it
    was. *)
Theorem outage_keeps_jobs polls w :
  Forall (fun poll : Replicate * string =>
            forall id, exists e, predictions_get (fst poll) id = Throw e)
         polls ->
  jobs (run_polls polls w) = jobs w.
Proof.
  intros Hdown. revert w.
  induction Hdown as [| [replicate jobId] polls Hhead _ IH]; intros w.
  - reflexivity.
  - simpl. rewrite IH. unfold after. simpl. simpl in Hhead.
    destruct (jobs w !! jobId) as [job |] eqn:Hjob.
    + rewrite (api_status_jobs replicate jobId w job Hjob).
      destruct (Hhead (predictionId job)) as [e ->]. reflexivity.
    + rewrite (api_status_unknown replicate jobId w Hjob). reflexivity.
Qed.

Lemma outage_keeps_jobs_witness :
  jobs (run_polls [ (provider_failing "Bad Gateway", sample_jobId);
                    (provider_failing "connect ETIMEDOUT", sample_jobId) ]
          sample_world)
  = jobs sample_world.
Proof.
  apply outage_keeps_jobs.
  repeat constructor; intros id; eexists; reflexivity.
Defined.

Lemma poll_again_same_jobs replicate jobId w :
  jobs (after replicate (GetStatus jobId) (after replicate (GetStatus jobId) w))
  = jobs (after replicate (GetStatus jobId) w).
Proof.
  unfold after. simpl.
  destruct (jobs w !! jobId) as [job |] eqn:Hjob.
  - rewrite (api_status_known replicate jobId w job Hjob).
    destruct (predictions_get replicate (predictionId job)) as [p | e] eqn:Ep;
      simpl.
    + set (w1 := store_job jobId (reconcile p job)
                   (log_call (PredictionsGet (predictionId job)) w)).
      assert (H1 : jobs w1 !! jobId = Some (reconcile p job))
        by apply lookup_insert_eq.
      rewrite (api_status_jobs replicate jobId w1 _ H1).
      rewrite reconcile_predictionId, Ep, reconcile_twice.
      apply insert_insert_eq.
    + set (w1 := log_call (PredictionsGet (predictionId job)) w).
      assert (H1 : jobs w1 !! jobId = Some job) by exact Hjob.
      rewrite (api_status_jobs replicate jobId w1 _ H1), Ep. reflexivity.
  - rewrite (api_status_unknown replicate jobId w Hjob). simpl.
    rewrite (api_status_unknown replicate jobId w Hjob). reflexivity.
Qed.

(** X19: polling a job any number of times, at least once, against a
    provider whose answers do not change leaves the job map as a single
    poll leaves it. *)
Theorem repeated_polls_same_jobs replicate jobId n w :
  jobs (run_polls (repeat (replicate, jobId) (S n)) w)
  = jobs (after replicate (GetStatus jobId) w).
Proof.
  revert w. induction n as [| n IH]; intros w.
  - reflexivity.
  - change (run_polls (repeat (replicate, jobId) (S (S n))) w)
      with (run_polls (repeat (replicate, jobId) (S n))
              (after replicate (GetStatus jobId) w)).
    rewrite IH. apply poll_again_same_jobs.
Qed.

(** ** Size of the job map *)

(** X20: a generate request answered 200 makes the job map one record
    larger when its identifier is new, and replaces the record under its
    identifier, keeping the size, when the identifier is already a key; a
    generate request answered otherwise leaves the map as it was. *)
Theorem generate_size now created replicate req w :
  exists r,
    fst (api_generate now created replicate req w) = Normal r
    /\ (statusCode r = 200 ->
        size (jobs (snd (api_generate now created replicate req w)))
        = match jobs w !! toString now with
          | Some _ => size (jobs w)
          | None => S (size (jobs w))
          end)
    /\ (statusCode r <> 200 ->
        jobs (snd (api_generate now created replicate req w)) = jobs w).
Proof.
  destruct (both_inputs_present req) eqn:E.
  - rewrite (api_generate_submits now created replicate req w E).
    destruct (predictions_create replicate (create_options req)) as [p | e];
      simpl; eexists; (split; [reflexivity |]); simpl.
    + split; [| intros H; contradiction H; reflexivity].
      intros _. rewrite map_size_insert.
      destruct (jobs w !! toString now); reflexivity.
    + split; [intros H; discriminate H | reflexivity].
  - rewrite (api_generate_rejects now created replicate req w E). simpl.
    eexists. split; [reflexivity |]. simpl.
    split; [intros H; discriminate H | reflexivity].
Qed.
